(** * torch-moveit: the RobotModel binding surface (src/robot_model.cpp)

    The file exports eight C functions over an opaque [RobotModelPtr*]: a
    heap-allocated [shared_ptr<RobotModel>].  They are embedded here as
    computations over an explicit memory, with undefined behaviour as an
    outcome of its own. *)

From stdpp Require Import base option numbers strings gmap fin_maps.

Open Scope string_scope.

(** ** The wrapped library *)

(** [std::ostream] as far as the binding sees it: the characters written so
    far.  [s.str()] of a [std::stringstream] is that text. *)
Definition ostream := string.

(** The part of [robot_model::RobotModel] the binding calls.  The class lives
    in MoveIt, not in this repository: its const methods are taken as the
    fields of a record, one per method called in robot_model.cpp. *)
Record RobotModel := {
  getName : string;
  getModelFrame : string;
  isEmpty : bool;
  printModelInfo : ostream → ostream;
  getRootJointName : string
}.

(** ** Memory *)

(** A pointer is an address; [0] is the null pointer, so that the test
    [if (ptr)] of the source is a comparison with [0]. *)
Definition pointer := N.
Definition nullptr : pointer := 0%N.

(** - [handles]: the [RobotModelPtr] objects made by [new RobotModelPtr()];
      each holds the stored pointer of a [shared_ptr], empty ([None]) or the
      address of a model;
    - [models]: the live model objects, each with the use count of its
      control block;
    - [strings]: the [std::string] objects of the caller. *)
Record memory := Memory {
  handles : gmap positive (option positive);
  models : gmap positive (RobotModel * positive);
  strings : gmap positive string
}.

(** ** Computations that may be undefined *)

Inductive outcome (A : Type) :=
  | Done (a : A) (m : memory)
  | Undefined.
Arguments Done {A} a m.
Arguments Undefined {A}.

Definition exec (A : Type) := memory → outcome A.

Global Instance exec_ret : MRet exec := λ A a m, Done a m.
Global Instance exec_bind : MBind exec := λ A B f c m,
  match c m with
  | Done a m' => f a m'
  | Undefined => Undefined
  end.

(** ** C++ primitives used by the source *)

(** [*ptr] for [ptr : RobotModelPtr*]: reads the handle object. *)
Definition deref (ptr : pointer) : exec (option positive) := λ m,
  match ptr with
  | N0 => Undefined
  | Npos l =>
      match handles m !! l with
      | Some slot => Done slot m
      | None => Undefined
      end
  end.

(** [shared_ptr::operator->]: the stored pointer must not be null. *)
Definition arrow (slot : option positive) : exec RobotModel := λ m,
  match slot with
  | None => Undefined
  | Some a =>
      match models m !! a with
      | Some (rm, _) => Done rm m
      | None => Undefined
      end
  end.

(** Giving up one share of a model: the use count goes down by one, and the
    owner of the last share destroys the model. *)
Definition drop_share (slot : option positive) : exec unit := λ m,
  match slot with
  | None => Done () m
  | Some a =>
      match models m !! a with
      | Some (rm, n) =>
          Done () (Memory (handles m)
                     (if decide (n = 1%positive) then delete a (models m)
                      else <[a := (rm, Pos.pred n)]> (models m))
                     (strings m))
      | None => Undefined
      end
  end.

(** Writing the stored pointer of the handle object at [ptr]. *)
Definition set_slot (ptr : pointer) (slot : option positive) : exec unit := λ m,
  match ptr with
  | N0 => Undefined
  | Npos l =>
      match handles m !! l with
      | Some _ => Done () (Memory (<[l := slot]> (handles m)) (models m) (strings m))
      | None => Undefined
      end
  end.

(** [ptr->reset()]: the handle becomes empty and its former share is
    dropped. *)
Definition reset (ptr : pointer) : exec unit :=
  slot ← deref ptr;
  set_slot ptr None;;
  drop_share slot.

(** [new RobotModelPtr()]: a fresh handle object, default-constructed
    (empty). *)
Definition new_RobotModelPtr : exec pointer := λ m,
  let l := fresh (dom (handles m)) in
  Done (Npos l) (Memory (<[l := None]> (handles m)) (models m) (strings m)).

(** Giving the storage of the handle object at [ptr] back to the
    allocator. *)
Definition free (ptr : pointer) : exec unit := λ m,
  match ptr with
  | N0 => Undefined
  | Npos l =>
      match handles m !! l with
      | Some _ => Done () (Memory (delete l (handles m)) (models m) (strings m))
      | None => Undefined
      end
  end.

(** [delete ptr] for a non-null [ptr]: the destructor of the [shared_ptr]
    drops its share, then the storage of the handle object is freed. *)
Definition delete_RobotModelPtr (ptr : pointer) : exec unit :=
  slot ← deref ptr;
  drop_share slot;;
  free ptr.

(** [*output = text] for [output : std::string*]. *)
Definition assign (output : pointer) (text : string) : exec unit := λ m,
  match output with
  | N0 => Undefined
  | Npos o =>
      match strings m !! o with
      | Some _ => Done () (Memory (handles m) (models m) (<[o := text]> (strings m)))
      | None => Undefined
      end
  end.

(** [std::string::c_str()] returns a [const char*] and no length: what the
    caller of the exported function receives is the C string at that
    address, the characters of the [std::string] up to its first NUL (all
    of them when it holds none). *)
Fixpoint c_str (s : string) : string :=
  match s with
  | EmptyString => EmptyString
  | String c s' =>
      if Ascii.eqb c Ascii.zero then EmptyString else String c (c_str s')
  end.

(** The [std::string] holds no NUL character. *)
Fixpoint nul_free (s : string) : bool :=
  match s with
  | EmptyString => true
  | String c s' => negb (Ascii.eqb c Ascii.zero) && nul_free s'
  end.

(** ** The exported functions *)

(** [MOVIMP(type, RobotModel, name)] comes from the headers of the binding
    and only declares the exported function: its return type and its name,
    written [RobotModel_name] here.  The bodies follow robot_model.cpp line
    by line. *)

Definition RobotModel_new : exec pointer :=
  new_RobotModelPtr.

Definition RobotModel_delete (ptr : pointer) : exec unit :=
  if negb (N.eqb ptr 0) then delete_RobotModelPtr ptr else mret ().

Definition RobotModel_release (ptr : pointer) : exec unit :=
  reset ptr.

Definition RobotModel_getName (ptr : pointer) : exec string :=
  slot ← deref ptr;
  rm ← arrow slot;
  mret (c_str (getName rm)).

Definition RobotModel_getModelFrame (ptr : pointer) : exec string :=
  slot ← deref ptr;
  rm ← arrow slot;
  mret (c_str (getModelFrame rm)).

Definition RobotModel_isEmpty (ptr : pointer) : exec bool :=
  slot ← deref ptr;
  rm ← arrow slot;
  mret (isEmpty rm).

Definition RobotModel_printModelInfo (ptr output : pointer) : exec unit :=
  let s : ostream := "" in
  slot ← deref ptr;
  rm ← arrow slot;
  let s := printModelInfo rm s in
  assign output s.

Definition RobotModel_getRootJointName (ptr : pointer) : exec string :=
  slot ← deref ptr;
  rm ← arrow slot;
  mret (c_str (getRootJointName rm)).

(** The shape shared by the four one-line queries: read the handle, follow
    its stored pointer, call a const getter of the model. *)
Definition forward {A} (get : RobotModel → A) (ptr : pointer) : exec A :=
  slot ← deref ptr;
  rm ← arrow slot;
  mret (get rm).

(** ** States of a handle *)

Definition defined {A} (r : outcome A) : bool :=
  match r with
  | Done _ _ => true
  | Undefined => false
  end.

(** The stored pointer [slot] is empty or owns a share of a live model. *)
Definition live_slot (m : memory) (slot : option positive) : bool :=
  match slot with
  | None => true
  | Some a => match models m !! a with Some _ => true | None => false end
  end.

(** [ptr] is the address of a handle object, Empty or Populated. *)
Definition is_handle (m : memory) (ptr : pointer) : bool :=
  match ptr with
  | N0 => false
  | Npos l =>
      match handles m !! l with
      | Some slot => live_slot m slot
      | None => false
      end
  end.

(** [ptr] is the address of a Populated handle. *)
Definition populated (m : memory) (ptr : pointer) : bool :=
  match ptr with
  | N0 => false
  | Npos l =>
      match handles m !! l with
      | Some (Some a) => match models m !! a with Some _ => true | None => false end
      | _ => false
      end
  end.

(** [output] is the address of a string of the caller. *)
Definition is_string (m : memory) (output : pointer) : bool :=
  match output with
  | N0 => false
  | Npos o => match strings m !! o with Some _ => true | None => false end
  end.

(** [needle] occurs in [hay]. *)
Fixpoint contains (needle hay : string) : bool :=
  String.prefix needle hay ||
  match hay with
  | EmptyString => false
  | String _ hay' => contains needle hay'
  end.

(** Modelled from the spec: [RobotModel::printModelInfo] is MoveIt code, not
    under src/.  The spec says of the dump it writes that it is a non-empty
    text in which the name of the model occurs. *)
Definition dumps_name (rm : RobotModel) : Prop :=
  printModelInfo rm "" ≠ "" ∧ contains (getName rm) (printModelInfo rm "") = true.

(** ** Shared ownership *)

(** The number of handle objects whose stored pointer refers to the model
    at [a]. *)
Definition holders (h : gmap positive (option positive)) (a : positive) : nat :=
  size (filter (λ kv, kv.2 = Some a) h).

(** The invariant of [shared_ptr], seen from the handles: the use count of a
    live model covers the handles that refer to it (the loader and other
    owners outside the binding may hold more shares), and no handle refers
    to a model that is gone. *)
Definition shares_accounted (m : memory) : Prop :=
  ∀ a, match models m !! a with
       | Some (_, n) => (holders (handles m) a ≤ Pos.to_nat n)%nat
       | None => holders (handles m) a = 0
       end.

(** ** A concrete memory *)

(** A model named "panda"; its dump starts with the line MoveIt prints
    first. *)
Definition panda : RobotModel := {|
  getName := "panda";
  getModelFrame := "world";
  isEmpty := false;
  printModelInfo := λ out, out +:+ "Model panda in frame world, using 9 variables";
  getRootJointName := "virtual_joint"
|}.

(** Handles 1 and 2 share the model at address 7, handle 3 is empty, and
    the caller has one string at address 5. *)
Definition mem0 : memory :=
  Memory (<[1%positive := Some 7%positive]>
            (<[2%positive := Some 7%positive]> (<[3%positive := None]> ∅)))
         {[ 7%positive := (panda, 2%positive) ]}
         {[ 5%positive := "stale" ]}.

(** A model whose name holds a NUL character, and a memory with one handle
    referring to it. *)
Definition pan_da : RobotModel := {|
  getName := "pan" +:+ String Ascii.zero "da";
  getModelFrame := "world";
  isEmpty := false;
  printModelInfo := λ out, out +:+ "Model";
  getRootJointName := "virtual_joint"
|}.

Definition mem_nul : memory :=
  Memory {[ 1%positive := Some 7%positive ]}
         {[ 7%positive := (pan_da, 1%positive) ]}
         ∅.

Example getName_mem0 :
  RobotModel_getName 1%N mem0 = Done "panda" mem0.
Proof. reflexivity. Qed.

Example getName_empty_handle :
  RobotModel_getName 3%N mem0 = Undefined.
Proof. reflexivity. Qed.

Example delete_null_mem0 :
  RobotModel_delete nullptr mem0 = Done () mem0.
Proof. reflexivity. Qed.

Example contains_panda :
  contains "panda" (printModelInfo panda "") = true.
Proof. reflexivity. Qed.

Example release_mem0 :
  RobotModel_release 1%N mem0 =
  Done () (Memory (<[1%positive := None]> (handles mem0))
                  {[ 7%positive := (panda, 1%positive) ]}
                  (strings mem0)).
Proof. vm_compute. reflexivity. Qed.

Example create_release_delete :
  (ptr ← RobotModel_new; RobotModel_release ptr;; RobotModel_delete ptr)
    (Memory ∅ ∅ ∅)
  = Done () (Memory ∅ ∅ ∅).
Proof. vm_compute. reflexivity. Qed.

Example delete_twice_undefined :
  (RobotModel_delete 3%N;; RobotModel_delete 3%N) mem0 = Undefined.
Proof. vm_compute. reflexivity. Qed.

Example getName_embedded_nul :
  getName pan_da = "pan" +:+ String Ascii.zero "da"
  ∧ String.length (getName pan_da) = 6
  ∧ RobotModel_getName 1%N mem_nul = Done "pan" mem_nul.
Proof. repeat split. Qed.

(** ** Equations of the primitives *)

Lemma c_str_nul_free s :
  nul_free s = true → c_str s = s.
Proof.
  induction s as [|c s IH]; [done|]. simpl.
  destruct (Ascii.eqb c Ascii.zero); [done|]. simpl.
  by intros ->%IH.
Qed.

Lemma c_str_idempotent s :
  c_str (c_str s) = c_str s.
Proof.
  induction s as [|c s IH]; [done|]. simpl.
  destruct (Ascii.eqb c Ascii.zero) eqn:Hc; [done|]. simpl.
  by rewrite Hc, IH.
Qed.

Lemma c_str_is_nul_free s :
  nul_free (c_str s) = true.
Proof.
  induction s as [|c s IH]; [done|]. simpl.
  destruct (Ascii.eqb c Ascii.zero) eqn:Hc; [done|]. simpl.
  by rewrite Hc, IH.
Qed.

Lemma memory_eta m :
  Memory (handles m) (models m) (strings m) = m.
Proof. by destruct m. Qed.

Section primitives.
Context (m : memory).

Lemma bind_done {A B} (c : exec A) (f : A → exec B) a m' :
  c m = Done a m' → (c ≫= f) m = f a m'.
Proof. unfold mbind, exec_bind. by intros ->. Qed.

Lemma bind_undefined {A B} (c : exec A) (f : A → exec B) :
  c m = Undefined → (c ≫= f) m = Undefined.
Proof. unfold mbind, exec_bind. by intros ->. Qed.

Lemma deref_null : deref nullptr m = Undefined.
Proof. done. Qed.

Lemma deref_handle l slot :
  handles m !! l = Some slot → deref (Npos l) m = Done slot m.
Proof. unfold deref. by intros ->. Qed.

Lemma deref_dangling l :
  handles m !! l = None → deref (Npos l) m = Undefined.
Proof. unfold deref. by intros ->. Qed.

Lemma arrow_empty : arrow None m = Undefined.
Proof. done. Qed.

Lemma arrow_model a rm n :
  models m !! a = Some (rm, n) → arrow (Some a) m = Done rm m.
Proof. unfold arrow. by intros ->. Qed.

Lemma defined_deref ptr :
  defined (deref ptr m) =
  match ptr with
  | N0 => false
  | Npos l => match handles m !! l with Some _ => true | None => false end
  end.
Proof. unfold deref. destruct ptr as [|l]; [done|]. by destruct (handles m !! l). Qed.

Lemma defined_arrow slot :
  defined (arrow slot m) =
  match slot with
  | Some a => match models m !! a with Some _ => true | None => false end
  | None => false
  end.
Proof.
  unfold arrow. destruct slot as [a|]; [|done].
  by destruct (models m !! a) as [[rm n]|].
Qed.

Lemma defined_drop_share slot :
  defined (drop_share slot m) = live_slot m slot.
Proof.
  unfold drop_share, live_slot. destruct slot as [a|]; [|done].
  by destruct (models m !! a) as [[rm n]|].
Qed.
End primitives.

Lemma getName_forward ptr :
  RobotModel_getName ptr = forward (λ rm, c_str (getName rm)) ptr.
Proof. done. Qed.

Lemma getModelFrame_forward ptr :
  RobotModel_getModelFrame ptr = forward (λ rm, c_str (getModelFrame rm)) ptr.
Proof. done. Qed.

Lemma isEmpty_forward ptr :
  RobotModel_isEmpty ptr = forward isEmpty ptr.
Proof. done. Qed.

Lemma getRootJointName_forward ptr :
  RobotModel_getRootJointName ptr
  = forward (λ rm, c_str (getRootJointName rm)) ptr.
Proof. done. Qed.

Lemma forward_populated {A} (get : RobotModel → A) m l a rm n :
  handles m !! l = Some (Some a) →
  models m !! a = Some (rm, n) →
  forward get (Npos l) m = Done (get rm) m.
Proof.
  intros Hl Ha. unfold forward.
  rewrite (bind_done _ _ _ _ _ (deref_handle _ _ _ Hl)).
  by rewrite (bind_done _ _ _ _ _ (arrow_model _ _ _ _ Ha)).
Qed.

Lemma forward_defined {A} (get : RobotModel → A) m ptr :
  defined (forward get ptr m) = populated m ptr.
Proof.
  unfold forward, populated, mbind, exec_bind, deref.
  destruct ptr as [|l]; [done|].
  destruct (handles m !! l) as [[a|]|]; [|done..].
  unfold arrow. by destruct (models m !! a) as [[rm n]|].
Qed.

Lemma forward_frame {A} (get : RobotModel → A) m ptr v m' :
  forward get ptr m = Done v m' → m' = m.
Proof.
  unfold forward, mbind, exec_bind, deref.
  destruct ptr as [|l]; [done|].
  destruct (handles m !! l) as [[a|]|]; [|done..].
  unfold arrow. destruct (models m !! a) as [[rm n]|]; [|done].
  unfold mret, exec_ret. by intros [= _ ->].
Qed.

Lemma populated_inv m ptr :
  populated m ptr = true →
  ∃ l a rm n, ptr = Npos l ∧ handles m !! l = Some (Some a)
              ∧ models m !! a = Some (rm, n).
Proof.
  unfold populated. destruct ptr as [|l]; [done|].
  destruct (handles m !! l) as [[a|]|] eqn:Hl; [|done..].
  destruct (models m !! a) as [[rm n]|] eqn:Ha; [|done].
  intros _. by exists l, a, rm, n.
Qed.

Lemma is_string_inv m output :
  is_string m output = true →
  ∃ o prior, output = Npos o ∧ strings m !! o = Some prior.
Proof.
  unfold is_string. destruct output as [|o]; [done|].
  destruct (strings m !! o) as [prior|] eqn:Ho; [|done].
  intros _. by exists o, prior.
Qed.

Lemma printModelInfo_populated m l a rm n o prior :
  handles m !! l = Some (Some a) →
  models m !! a = Some (rm, n) →
  strings m !! o = Some prior →
  RobotModel_printModelInfo (Npos l) (Npos o) m =
  Done () (Memory (handles m) (models m)
                  (<[o := printModelInfo rm ""]> (strings m))).
Proof.
  intros Hl Ha Ho. unfold RobotModel_printModelInfo.
  rewrite (bind_done _ _ _ _ _ (deref_handle _ _ _ Hl)).
  rewrite (bind_done _ _ _ _ _ (arrow_model _ _ _ _ Ha)).
  unfold assign. by rewrite Ho.
Qed.

Lemma printModelInfo_defined m ptr output :
  defined (RobotModel_printModelInfo ptr output m) =
  populated m ptr && is_string m output.
Proof.
  unfold RobotModel_printModelInfo, populated, mbind, exec_bind, deref.
  destruct ptr as [|l]; [done|].
  destruct (handles m !! l) as [[a|]|]; [|done..].
  unfold arrow. destruct (models m !! a) as [[rm n]|]; [|done].
  unfold assign, is_string. destruct output as [|o]; [done|].
  by destruct (strings m !! o).
Qed.

Lemma reset_handle m l slot :
  handles m !! l = Some slot →
  reset (Npos l) m =
  drop_share slot (Memory (<[l := None]> (handles m)) (models m) (strings m)).
Proof.
  intros Hl. unfold reset.
  rewrite (bind_done _ _ _ _ _ (deref_handle _ _ _ Hl)).
  unfold mbind, exec_bind, set_slot. by rewrite Hl.
Qed.

Lemma reset_defined m ptr :
  defined (reset ptr m) = is_handle m ptr.
Proof.
  unfold is_handle. destruct ptr as [|l]; [done|].
  destruct (handles m !! l) as [slot|] eqn:Hl.
  - rewrite (reset_handle _ _ _ Hl). by rewrite defined_drop_share.
  - unfold reset. by rewrite (bind_undefined _ _ _ (deref_dangling _ _ Hl)).
Qed.

Lemma delete_handle m l slot :
  handles m !! l = Some slot →
  delete_RobotModelPtr (Npos l) m =
  match drop_share slot m with
  | Done _ m' => Done () (Memory (delete l (handles m')) (models m') (strings m'))
  | Undefined => Undefined
  end.
Proof.
  intros Hl. unfold delete_RobotModelPtr.
  rewrite (bind_done _ _ _ _ _ (deref_handle _ _ _ Hl)).
  unfold mbind, exec_bind, drop_share.
  destruct slot as [a|]; simpl.
  - destruct (models m !! a) as [[rm n]|]; [|done]. simpl. by rewrite Hl.
  - by rewrite Hl.
Qed.

Lemma drop_share_handles m slot m' :
  drop_share slot m = Done () m' →
  handles m' = handles m ∧ strings m' = strings m.
Proof.
  unfold drop_share. destruct slot as [a|].
  - destruct (models m !! a) as [[rm n]|]; [|done]. by intros [= <-].
  - by intros [= <-].
Qed.

Lemma delete_defined m ptr :
  defined (RobotModel_delete ptr m) = (ptr =? 0)%N || is_handle m ptr.
Proof.
  unfold RobotModel_delete, is_handle. destruct ptr as [|l]; [done|]. simpl.
  destruct (handles m !! l) as [slot|] eqn:Hl.
  - rewrite (delete_handle _ _ _ Hl), <-defined_drop_share.
    by destruct (drop_share slot m).
  - unfold delete_RobotModelPtr.
    by rewrite (bind_undefined _ _ _ (deref_dangling _ _ Hl)).
Qed.

Lemma release_empty_handle m l :
  handles m !! l = Some None →
  RobotModel_release (Npos l) m = Done () m.
Proof.
  intros Hl. unfold RobotModel_release. rewrite (reset_handle _ _ _ Hl).
  unfold drop_share. by rewrite (insert_id _ _ _ Hl), memory_eta.
Qed.

Lemma release_leaves_empty m ptr m' :
  RobotModel_release ptr m = Done () m' →
  ∃ l, ptr = Npos l ∧ handles m' !! l = Some None.
Proof.
  unfold RobotModel_release. destruct ptr as [|l]; [done|].
  destruct (handles m !! l) as [slot|] eqn:Hl.
  - rewrite (reset_handle _ _ _ Hl). intros Hd.
    destruct (drop_share_handles _ _ _ Hd) as [Hh _].
    exists l. split; [done|]. rewrite Hh. simpl. apply lookup_insert_eq.
  - unfold reset. by rewrite (bind_undefined _ _ _ (deref_dangling _ _ Hl)).
Qed.

(** ** Occurrences of one text in another *)

Lemma append_String c s t :
  String c s +:+ t = String c (s +:+ t).
Proof. done. Qed.

Lemma append_empty t :
  "" +:+ t = t.
Proof. done. Qed.

Lemma prefix_spec s t :
  String.prefix s t = true ↔ ∃ post, t = s +:+ post.
Proof.
  revert t. induction s as [|c s IH]; intros t; simpl.
  - destruct t; split; eauto.
  - destruct t as [|b t]; simpl.
    + split; [done|]. by intros [post ?].
    + destruct (Ascii.ascii_dec c b) as [->|Hne].
      * rewrite IH. split; intros [post Hpost]; exists post;
          rewrite append_String in *; congruence.
      * split; [done|]. intros [post Hpost].
        rewrite append_String in Hpost. congruence.
Qed.

Lemma contains_empty s :
  contains s "" = String.prefix s "".
Proof. unfold contains. apply orb_false_r. Qed.

Lemma contains_String s c t :
  contains s (String c t) = String.prefix s (String c t) || contains s t.
Proof. done. Qed.

Lemma contains_spec s t :
  contains s t = true ↔ ∃ pre post, t = pre +:+ s +:+ post.
Proof.
  split.
  - induction t as [|c t IH].
    + rewrite contains_empty. intros [post Hp]%prefix_spec.
      by exists "", post.
    + rewrite contains_String. intros [Hp|Hc]%orb_true_iff.
      * apply prefix_spec in Hp as [post Hp]. by exists "", post.
      * destruct (IH Hc) as (pre & post & ->). by exists (String c pre), post.
  - intros (pre & post & ->). induction pre as [|c pre IH].
    + rewrite append_empty.
      assert (String.prefix s (s +:+ post) = true) as Hp
        by (apply prefix_spec; eauto).
      destruct (s +:+ post).
      * by rewrite contains_empty.
      * by rewrite contains_String, Hp.
    + rewrite append_String, contains_String, IH. apply orb_true_r.
Qed.

(** ** The binding keeps the shares accounted *)

Section holders.
Implicit Types h : gmap positive (option positive).

Lemma holders_insert_fresh h l slot a :
  h !! l = None →
  holders (<[l := slot]> h) a
  = (if decide (slot = Some a) then 1 else 0) + holders h a.
Proof.
  intros Hl. unfold holders. case_decide as Hs.
  - rewrite map_filter_insert_True by done.
    rewrite map_size_insert_None; [done|].
    apply map_lookup_filter_None. by left.
  - rewrite map_filter_insert_False by done.
    by rewrite delete_id.
Qed.

Lemma holders_insert h l slot a :
  holders (<[l := slot]> h) a
  = (if decide (slot = Some a) then 1 else 0) + holders (delete l h) a.
Proof.
  rewrite <-insert_delete_eq. apply holders_insert_fresh, lookup_delete_eq.
Qed.

Lemma holders_lookup h l slot a :
  h !! l = Some slot →
  holders h a
  = (if decide (slot = Some a) then 1 else 0) + holders (delete l h) a.
Proof.
  intros Hl. rewrite <-(insert_id h l slot Hl) at 1. apply holders_insert.
Qed.
End holders.

Lemma accounted_live_slot m l slot :
  shares_accounted m →
  handles m !! l = Some slot →
  live_slot m slot = true.
Proof.
  intros Hacc Hl. unfold live_slot. destruct slot as [a|]; [|done].
  specialize (Hacc a). rewrite (holders_lookup _ _ _ a Hl) in Hacc.
  rewrite decide_True in Hacc by done.
  destruct (models m !! a) as [[rm n]|]; [done|lia].
Qed.

Lemma accounted_is_handle m l :
  shares_accounted m →
  is_handle m (Npos l) = true ↔ is_Some (handles m !! l).
Proof.
  intros Hacc. unfold is_handle. split.
  - by destruct (handles m !! l).
  - intros [slot Hl]. rewrite Hl. by eapply accounted_live_slot.
Qed.

Lemma drop_share_accounted m l slot hs m' :
  shares_accounted m →
  handles m !! l = Some slot →
  drop_share slot (Memory hs (models m) (strings m)) = Done () m' →
  ∀ a, match models m' !! a with
       | Some (_, n) => (holders (delete l (handles m)) a ≤ Pos.to_nat n)%nat
       | None => holders (delete l (handles m)) a = 0
       end.
Proof.
  intros Hacc Hl Hd a'. specialize (Hacc a').
  rewrite (holders_lookup _ _ _ a' Hl) in Hacc.
  unfold drop_share in Hd. simpl in Hd. destruct slot as [a|].
  - destruct (models m !! a) as [[rm n]|] eqn:Ha; [|done].
    injection Hd as <-. simpl.
    destruct (decide (a' = a)) as [->|Hne].
    + rewrite Ha, decide_True in Hacc by done.
      case_decide as Hn.
      * rewrite lookup_delete_eq. subst n. simpl in Hacc. lia.
      * rewrite lookup_insert_eq. rewrite Pos2Nat.inj_pred by lia. lia.
    + rewrite decide_False in Hacc by congruence.
      case_decide; by rewrite ?lookup_delete_ne, ?lookup_insert_ne.
  - injection Hd as <-. simpl. by rewrite decide_False in Hacc.
Qed.

Lemma new_accounted m ptr m' :
  shares_accounted m →
  RobotModel_new m = Done ptr m' →
  shares_accounted m'.
Proof.
  intros Hacc [= _ <-] a. simpl.
  rewrite holders_insert_fresh, decide_False by
    (done || apply not_elem_of_dom, is_fresh).
  apply Hacc.
Qed.

Lemma release_accounted m ptr m' :
  shares_accounted m →
  RobotModel_release ptr m = Done () m' →
  shares_accounted m'.
Proof.
  intros Hacc. unfold RobotModel_release. destruct ptr as [|l]; [done|].
  destruct (handles m !! l) as [slot|] eqn:Hl.
  - rewrite (reset_handle _ _ _ Hl). intros Hd a.
    destruct (drop_share_handles _ _ _ Hd) as [-> _]. simpl.
    rewrite holders_insert, decide_False by done.
    apply (drop_share_accounted _ _ _ _ _ Hacc Hl Hd).
  - unfold reset. by rewrite (bind_undefined _ _ _ (deref_dangling _ _ Hl)).
Qed.

Lemma delete_accounted m ptr m' :
  shares_accounted m →
  RobotModel_delete ptr m = Done () m' →
  shares_accounted m'.
Proof.
  intros Hacc. unfold RobotModel_delete. destruct ptr as [|l]; simpl.
  { by intros [= <-]. }
  destruct (handles m !! l) as [slot|] eqn:Hl.
  - rewrite (delete_handle _ _ _ Hl).
    destruct (drop_share slot m) as [[] m1|] eqn:Hd; [|done].
    intros [= <-] a. simpl.
    destruct (drop_share_handles _ _ _ Hd) as [-> _].
    rewrite <-(memory_eta m) in Hd.
    apply (drop_share_accounted _ _ _ _ _ Hacc Hl Hd).
  - unfold delete_RobotModelPtr.
    by rewrite (bind_undefined _ _ _ (deref_dangling _ _ Hl)).
Qed.

Lemma forward_accounted {A} (get : RobotModel → A) m ptr v m' :
  shares_accounted m →
  forward get ptr m = Done v m' →
  shares_accounted m'.
Proof. intros Hacc Hrun. by rewrite (forward_frame _ _ _ _ _ Hrun). Qed.

Lemma printModelInfo_accounted m ptr output m' :
  shares_accounted m →
  RobotModel_printModelInfo ptr output m = Done () m' →
  shares_accounted m'.
Proof.
  intros Hacc. unfold RobotModel_printModelInfo, mbind, exec_bind, deref.
  destruct ptr as [|l]; [done|].
  destruct (handles m !! l) as [[a|]|]; [|done..].
  unfold arrow. destruct (models m !! a) as [[rm n]|]; [|done].
  unfold assign. destruct output as [|o]; [done|].
  destruct (strings m !! o); [|done].
  by intros [= <-].
Qed.

Lemma holders_empty a :
  holders ∅ a = 0.
Proof. unfold holders. by rewrite map_filter_empty, map_size_empty. Qed.

Lemma mem0_accounted :
  shares_accounted mem0.
Proof.
  intros a. unfold mem0. simpl.
  rewrite !holders_insert_fresh, holders_empty by done.
  destruct (decide (a = 7%positive)) as [->|Hne].
  - rewrite lookup_singleton_eq. rewrite !decide_True by done. simpl. lia.
  - rewrite lookup_singleton_ne by done.
    rewrite !decide_False by congruence. done.
Qed.

(** ** The claims *)

(** C1. On a handle whose stored pointer refers to a live model, [getName]
    returns the name of that model as a C string and leaves the memory as
    it was: the characters of the name up to its first NUL, which is the
    whole name whenever the name holds no NUL.  In particular a handle
    populated with a model named "panda" answers "panda". *)
Theorem getName_returns_model_name (m : memory) (l a : positive)
    (rm : RobotModel) (n : positive) :
  handles m !! l = Some (Some a) →
  models m !! a = Some (rm, n) →
  RobotModel_getName (Npos l) m = Done (c_str (getName rm)) m
  ∧ (nul_free (getName rm) = true →
     RobotModel_getName (Npos l) m = Done (getName rm) m)
  ∧ (getName rm = "panda" → RobotModel_getName (Npos l) m = Done "panda" m).
Proof.
  intros Hl Ha. rewrite getName_forward.
  rewrite (forward_populated _ _ _ _ _ _ Hl Ha).
  split; [done|]. split.
  - intros Hnul. by rewrite (c_str_nul_free _ Hnul).
  - by intros ->.
Qed.

Lemma getName_returns_model_name_witness :
  RobotModel_getName 1%N mem0 = Done "panda" mem0.
Proof.
  apply (proj2 (proj2 (getName_returns_model_name mem0 1 7 panda 2
                         eq_refl eq_refl))).
  reflexivity.
Defined.

(** C2. [delete] is safe on the null pointer and on every handle: on null it
    completes and changes nothing; on a handle it completes, and afterwards
    the storage of that handle object, and of no other, is gone. *)
Theorem delete_safe (m : memory) (ptr : pointer) :
  ptr = nullptr ∨ is_handle m ptr = true →
  ∃ m', RobotModel_delete ptr m = Done () m'
        ∧ (ptr = nullptr → m' = m)
        ∧ (∀ l, ptr = Npos l →
             handles m' = delete l (handles m) ∧ handles m' !! l = None
             ∧ strings m' = strings m).
Proof.
  intros [->|Hh].
  - exists m. by split.
  - unfold is_handle in Hh. destruct ptr as [|l]; [done|].
    destruct (handles m !! l) as [slot|] eqn:Hl; [|done].
    rewrite <-defined_drop_share in Hh.
    unfold RobotModel_delete. simpl. rewrite (delete_handle _ _ _ Hl).
    destruct (drop_share slot m) as [[] m1|] eqn:Hd; [|done].
    destruct (drop_share_handles _ _ _ Hd) as [-> ->].
    eexists. split; [done|]. split; [done|].
    intros l' [= <-]. simpl. by rewrite lookup_delete_eq.
Qed.

Lemma delete_safe_witness :
  ∃ m', RobotModel_delete 1%N mem0 = Done () m'
        ∧ (1%N = nullptr → m' = mem0)
        ∧ (∀ l, 1%N = Npos l →
             handles m' = delete l (handles mem0) ∧ handles m' !! l = None
             ∧ strings m' = strings mem0).
Proof. apply (delete_safe mem0 1%N). right. reflexivity. Defined.

(** C3. On a handle, [release] completes; afterwards the stored pointer of
    the handle is empty, one share of the model it referred to is dropped
    (the use count goes down by one, and the model is destroyed with its
    last share), and the handle object is still there: it is a handle of
    the new memory and [delete] completes on it. *)
Theorem release_empties_handle (m : memory) (l : positive)
    (slot : option positive) :
  handles m !! l = Some slot →
  live_slot m slot = true →
  ∃ m', RobotModel_release (Npos l) m = Done () m'
        ∧ handles m' = <[l := None]> (handles m)
        ∧ handles m' !! l = Some None
        ∧ (∀ a rm n, slot = Some a → models m !! a = Some (rm, n) →
             models m' = if decide (n = 1%positive) then delete a (models m)
                         else <[a := (rm, Pos.pred n)]> (models m))
        ∧ (slot = None → models m' = models m)
        ∧ strings m' = strings m
        ∧ is_handle m' (Npos l) = true
        ∧ ∃ m'', RobotModel_delete (Npos l) m' = Done () m''
                 ∧ handles m'' = delete l (handles m).
Proof.
  intros Hl Hlive. unfold RobotModel_release.
  rewrite (reset_handle _ _ _ Hl).
  assert (Hfin : ∀ ms,
    let m' := Memory (<[l := None]> (handles m)) ms (strings m) in
    is_handle m' (Npos l) = true
    ∧ ∃ m'', RobotModel_delete (Npos l) m' = Done () m''
             ∧ handles m'' = delete l (handles m)).
  { intros ms m'. split.
    - unfold is_handle. simpl. by rewrite lookup_insert_eq.
    - unfold RobotModel_delete. simpl.
      rewrite (delete_handle m' l None) by apply lookup_insert_eq.
      eexists. split; [done|]. simpl. by rewrite delete_insert_eq. }
  unfold live_slot in Hlive. unfold drop_share.
  destruct slot as [a|]; simpl.
  - destruct (models m !! a) as [[rm n]|] eqn:Ha; [|done].
    eexists. split; [done|]. simpl.
    split; [done|]. split; [by rewrite lookup_insert_eq|].
    split; [by intros a' rm' n' [= <-] Ha'; simplify_eq|].
    split; [done|]. split; [done|]. apply Hfin.
  - eexists. split; [done|]. simpl.
    split; [done|]. split; [by rewrite lookup_insert_eq|].
    split; [done|]. split; [done|]. split; [done|]. apply Hfin.
Qed.

Lemma release_empties_handle_witness :
  ∃ m', RobotModel_release 1%N mem0 = Done () m'
        ∧ handles m' !! 1%positive = Some None
        ∧ models m' !! 7%positive = Some (panda, 1%positive).
Proof.
  destruct (release_empties_handle mem0 1 (Some 7%positive))
    as (m' & Hrun & _ & Hl & Hms & _); [reflexivity..|].
  exists m'. split; [exact Hrun|]. split; [exact Hl|].
  rewrite (Hms 7%positive panda 2%positive); reflexivity.
Defined.

(** C4. [new] completes in every memory; it returns a non-null pointer to a
    handle object that was not there before and whose stored pointer is
    empty, and touches nothing else. *)
Theorem new_returns_empty_handle (m : memory) :
  ∃ l m', RobotModel_new m = Done (Npos l) m'
          ∧ handles m !! l = None
          ∧ handles m' !! l = Some None
          ∧ (∀ l', l' ≠ l → handles m' !! l' = handles m !! l')
          ∧ models m' = models m
          ∧ strings m' = strings m
          ∧ is_handle m' (Npos l) = true
          ∧ populated m' (Npos l) = false.
Proof.
  unfold RobotModel_new, new_RobotModelPtr.
  set (l := fresh (dom (handles m))).
  assert (Hfresh : handles m !! l = None).
  { apply not_elem_of_dom. apply is_fresh. }
  exists l. eexists. split; [done|]. simpl.
  split; [done|]. split; [by rewrite lookup_insert_eq|].
  split; [by intros l' Hne; rewrite lookup_insert_ne|].
  split; [done|]. split; [done|].
  unfold is_handle, populated. simpl. by rewrite lookup_insert_eq.
Qed.

(** C5. The guard of [delete] is the only check of a handle in the file.
    [delete] completes on the null pointer, while [release] and the five
    queries are undefined on it; and each of them completes exactly under
    its precondition: [release] on a handle, a query on a Populated handle
    ([printModelInfo] also needs a string to write to), so that under the
    precondition no undefined step is reached. *)
Theorem delete_guard_is_the_only_check (m : memory) :
  RobotModel_delete nullptr m = Done () m
  ∧ RobotModel_release nullptr m = Undefined
  ∧ RobotModel_getName nullptr m = Undefined
  ∧ RobotModel_getModelFrame nullptr m = Undefined
  ∧ RobotModel_isEmpty nullptr m = Undefined
  ∧ (∀ output, RobotModel_printModelInfo nullptr output m = Undefined)
  ∧ RobotModel_getRootJointName nullptr m = Undefined
  ∧ ∀ ptr,
      defined (RobotModel_delete ptr m) = (ptr =? 0)%N || is_handle m ptr
      ∧ defined (RobotModel_release ptr m) = is_handle m ptr
      ∧ defined (RobotModel_getName ptr m) = populated m ptr
      ∧ defined (RobotModel_getModelFrame ptr m) = populated m ptr
      ∧ defined (RobotModel_isEmpty ptr m) = populated m ptr
      ∧ (∀ output, defined (RobotModel_printModelInfo ptr output m)
                   = populated m ptr && is_string m output)
      ∧ defined (RobotModel_getRootJointName ptr m) = populated m ptr.
Proof.
  repeat split; try done.
  - apply delete_defined.
  - apply reset_defined.
  - rewrite getName_forward. apply forward_defined.
  - rewrite getModelFrame_forward. apply forward_defined.
  - rewrite isEmpty_forward. apply forward_defined.
  - intros output. apply printModelInfo_defined.
  - rewrite getRootJointName_forward. apply forward_defined.
Qed.

(** C6. On a Populated handle and a string of the caller, [printModelInfo]
    completes and stores in that string exactly what the dump routine of the
    model writes to an empty stream, and changes nothing else in memory.
    The dump routine belongs to MoveIt: as what it writes is not empty and
    contains the name of the model ([dumps_name]), so is the text
    returned. *)
Theorem printModelInfo_returns_dump (m : memory) (l a o : positive)
    (rm : RobotModel) (n : positive) (prior : string) :
  handles m !! l = Some (Some a) →
  models m !! a = Some (rm, n) →
  strings m !! o = Some prior →
  dumps_name rm →
  ∃ text m', RobotModel_printModelInfo (Npos l) (Npos o) m = Done () m'
             ∧ text = printModelInfo rm ""
             ∧ strings m' !! o = Some text
             ∧ text ≠ ""
             ∧ contains (getName rm) text = true
             ∧ handles m' = handles m
             ∧ models m' = models m
             ∧ (∀ o', o' ≠ o → strings m' !! o' = strings m !! o').
Proof.
  intros Hl Ha Ho [Hne Hsub].
  rewrite (printModelInfo_populated _ _ _ _ _ _ _ Hl Ha Ho).
  eexists. eexists. split; [done|]. simpl.
  split; [done|]. split; [by rewrite lookup_insert_eq|].
  split; [done|]. split; [done|]. split; [done|]. split; [done|].
  intros o' Hne'. by rewrite lookup_insert_ne.
Qed.

Lemma printModelInfo_returns_dump_witness :
  ∃ text m', RobotModel_printModelInfo 2%N 5%N mem0 = Done () m'
             ∧ text = "Model panda in frame world, using 9 variables"
             ∧ strings m' !! 5%positive = Some text.
Proof.
  destruct (printModelInfo_returns_dump mem0 2 7 5 panda 2 "stale")
    as (text & m' & Hrun & Htext & Ho & _);
    [reflexivity | reflexivity | reflexivity | | ].
  { split; [discriminate | reflexivity]. }
  exists text, m'. split; [exact Hrun|]. split; [exact Htext|]. exact Ho.
Defined.

(** C7. Two handles whose stored pointers refer to the same model give the
    same outcome of [getModelFrame]; when the model is live, both return
    its frame, as a C string. *)
Theorem getModelFrame_shared_model (m : memory) (l1 l2 a : positive) :
  handles m !! l1 = Some (Some a) →
  handles m !! l2 = Some (Some a) →
  RobotModel_getModelFrame (Npos l1) m = RobotModel_getModelFrame (Npos l2) m
  ∧ ∀ rm n, models m !! a = Some (rm, n) →
      RobotModel_getModelFrame (Npos l1) m
      = Done (c_str (getModelFrame rm)) m
      ∧ RobotModel_getModelFrame (Npos l2) m
        = Done (c_str (getModelFrame rm)) m.
Proof.
  intros H1 H2. split.
  - unfold RobotModel_getModelFrame, mbind, exec_bind.
    by rewrite (deref_handle _ _ _ H1), (deref_handle _ _ _ H2).
  - intros rm n Ha.
    rewrite (getModelFrame_forward (Npos l1)), (getModelFrame_forward (Npos l2)).
    by rewrite (forward_populated _ _ _ _ _ _ H1 Ha),
               (forward_populated _ _ _ _ _ _ H2 Ha).
Qed.

Lemma getModelFrame_shared_model_witness :
  RobotModel_getModelFrame 1%N mem0 = Done "world" mem0
  ∧ RobotModel_getModelFrame 2%N mem0 = Done "world" mem0.
Proof.
  apply (proj2 (getModelFrame_shared_model mem0 1 2 7 eq_refl eq_refl)
           panda 2%positive).
  reflexivity.
Defined.

(** C8. The queries only read.  On a Populated handle [getName],
    [getModelFrame], [isEmpty] and [getRootJointName] complete in the memory
    they started from; [printModelInfo] writes the string of the caller and
    leaves every handle object and every model as it was, so the handle is
    still Populated with the same model. *)
Theorem queries_read_only (m : memory) (ptr : pointer) :
  populated m ptr = true →
  (∃ v, RobotModel_getName ptr m = Done v m)
  ∧ (∃ v, RobotModel_getModelFrame ptr m = Done v m)
  ∧ (∃ v, RobotModel_isEmpty ptr m = Done v m)
  ∧ (∃ v, RobotModel_getRootJointName ptr m = Done v m)
  ∧ ∀ output, is_string m output = true →
      ∃ m', RobotModel_printModelInfo ptr output m = Done () m'
            ∧ handles m' = handles m
            ∧ models m' = models m
            ∧ populated m' ptr = true.
Proof.
  intros Hp. destruct (populated_inv _ _ Hp) as (l & a & rm & n & -> & Hl & Ha).
  rewrite getName_forward, getModelFrame_forward, isEmpty_forward,
    getRootJointName_forward.
  rewrite !(forward_populated _ _ _ _ _ _ Hl Ha).
  repeat (split; [by eexists|]).
  intros output Ho. destruct (is_string_inv _ _ Ho) as (o & prior & -> & Ho').
  rewrite (printModelInfo_populated _ _ _ _ _ _ _ Hl Ha Ho').
  eexists. split; [done|]. simpl. split; [done|]. split; [done|].
  unfold populated. simpl. by rewrite Hl, Ha.
Qed.

Lemma queries_read_only_witness :
  ∃ v, RobotModel_getRootJointName 1%N mem0 = Done v mem0.
Proof.
  destruct (queries_read_only mem0 1%N) as (_ & _ & _ & Hroot & _);
    [reflexivity|].
  exact Hroot.
Defined.

(** C9. [release] on an Empty handle completes and changes nothing, so the
    handle stays Empty; and in every memory and for every pointer, two
    calls of [release] in a row have the outcome of one. *)
Theorem release_idempotent (m : memory) (ptr : pointer) :
  (∀ l, ptr = Npos l → handles m !! l = Some None →
     RobotModel_release ptr m = Done () m)
  ∧ (RobotModel_release ptr;; RobotModel_release ptr) m
    = RobotModel_release ptr m.
Proof.
  split.
  - intros l -> Hl. by apply release_empty_handle.
  - destruct (RobotModel_release ptr m) as [[] m'|] eqn:Hrun.
    + rewrite (bind_done _ _ _ _ _ Hrun).
      destruct (release_leaves_empty _ _ _ Hrun) as (l & -> & Hl).
      by apply release_empty_handle.
    + by rewrite (bind_undefined _ _ _ Hrun).
Qed.

Lemma release_idempotent_witness :
  RobotModel_release 3%N mem0 = Done () mem0.
Proof.
  apply (proj1 (release_idempotent mem0 3%N) 3%positive); reflexivity.
Defined.

(** C10. [printModelInfo] assigns to the string of the caller: after the
    call the string holds exactly the dump, whatever it held before, and
    the memory after the call is the same for every prior content. *)
Theorem printModelInfo_overwrites (m : memory) (l a o : positive)
    (rm : RobotModel) (n : positive) (prior : string) :
  handles m !! l = Some (Some a) →
  models m !! a = Some (rm, n) →
  strings m !! o = Some prior →
  ∃ m', RobotModel_printModelInfo (Npos l) (Npos o) m = Done () m'
        ∧ strings m' !! o = Some (printModelInfo rm "")
        ∧ ∀ prior',
            RobotModel_printModelInfo (Npos l) (Npos o)
              (Memory (handles m) (models m) (<[o := prior']> (strings m)))
            = Done () m'.
Proof.
  intros Hl Ha Ho.
  rewrite (printModelInfo_populated _ _ _ _ _ _ _ Hl Ha Ho).
  eexists. split; [done|]. simpl. split; [by rewrite lookup_insert_eq|].
  intros prior'.
  rewrite (printModelInfo_populated _ l a rm n o prior'); simpl;
    [|done|done|by rewrite lookup_insert_eq].
  by rewrite insert_insert_eq.
Qed.

Lemma printModelInfo_overwrites_witness :
  ∃ m', RobotModel_printModelInfo 1%N 5%N mem0 = Done () m'
        ∧ strings m' !! 5%positive
          = Some "Model panda in frame world, using 9 variables"
        ∧ RobotModel_printModelInfo 1%N 5%N
            (Memory (handles mem0) (models mem0)
                    (<[5%positive := "other"]> (strings mem0)))
          = Done () m'.
Proof.
  destruct (printModelInfo_overwrites mem0 1 7 5 panda 2 "stale")
    as (m' & Hrun & Ho & Hany); [reflexivity..|].
  exists m'. split; [exact Hrun|]. split; [exact Ho|]. exact (Hany "other").
Defined.

(** ** Further properties of the binding *)

Lemma release_populated m l a rm n :
  handles m !! l = Some (Some a) →
  models m !! a = Some (rm, n) →
  RobotModel_release (Npos l) m =
  Done () (Memory (<[l := None]> (handles m))
             (if decide (n = 1%positive) then delete a (models m)
              else <[a := (rm, Pos.pred n)]> (models m))
             (strings m)).
Proof.
  intros Hl Ha. unfold RobotModel_release. rewrite (reset_handle _ _ _ Hl).
  unfold drop_share. simpl. by rewrite Ha.
Qed.

Lemma delete_populated m l a rm n :
  handles m !! l = Some (Some a) →
  models m !! a = Some (rm, n) →
  RobotModel_delete (Npos l) m =
  Done () (Memory (delete l (handles m))
             (if decide (n = 1%positive) then delete a (models m)
              else <[a := (rm, Pos.pred n)]> (models m))
             (strings m)).
Proof.
  intros Hl Ha. unfold RobotModel_delete. simpl.
  rewrite (delete_handle _ _ _ Hl). unfold drop_share. by rewrite Ha.
Qed.

Lemma delete_empty_handle m l :
  handles m !! l = Some None →
  RobotModel_delete (Npos l) m =
  Done () (Memory (delete l (handles m)) (models m) (strings m)).
Proof.
  intros Hl. unfold RobotModel_delete. simpl.
  by rewrite (delete_handle _ _ _ Hl).
Qed.

Lemma forward_dangling {A} (get : RobotModel → A) m l :
  handles m !! l = None → forward get (Npos l) m = Undefined.
Proof.
  intros Hl. unfold forward.
  by rewrite (bind_undefined _ _ _ (deref_dangling _ _ Hl)).
Qed.

Lemma forward_empty_handle {A} (get : RobotModel → A) m l :
  handles m !! l = Some None → forward get (Npos l) m = Undefined.
Proof.
  intros Hl. unfold forward.
  by rewrite (bind_done _ _ _ _ _ (deref_handle _ _ _ Hl)).
Qed.

Lemma printModelInfo_dangling m l output :
  handles m !! l = None →
  RobotModel_printModelInfo (Npos l) output m = Undefined.
Proof.
  intros Hl. unfold RobotModel_printModelInfo.
  by rewrite (bind_undefined _ _ _ (deref_dangling _ _ Hl)).
Qed.

Lemma printModelInfo_empty_handle m l output :
  handles m !! l = Some None →
  RobotModel_printModelInfo (Npos l) output m = Undefined.
Proof.
  intros Hl. unfold RobotModel_printModelInfo.
  by rewrite (bind_done _ _ _ _ _ (deref_handle _ _ _ Hl)).
Qed.

Lemma release_dangling m l :
  handles m !! l = None → RobotModel_release (Npos l) m = Undefined.
Proof.
  intros Hl. unfold RobotModel_release, reset.
  by rewrite (bind_undefined _ _ _ (deref_dangling _ _ Hl)).
Qed.

Lemma delete_dangling m l :
  handles m !! l = None → RobotModel_delete (Npos l) m = Undefined.
Proof.
  intros Hl. unfold RobotModel_delete, delete_RobotModelPtr. simpl.
  by rewrite (bind_undefined _ _ _ (deref_dangling _ _ Hl)).
Qed.

Lemma delete_run m l slot :
  handles m !! l = Some slot →
  live_slot m slot = true →
  ∃ ms, RobotModel_delete (Npos l) m
        = Done () (Memory (delete l (handles m)) ms (strings m)).
Proof.
  intros Hl Hlive. unfold live_slot in Hlive. destruct slot as [a|].
  - destruct (models m !! a) as [[rm n]|] eqn:Ha; [|done].
    eexists. by apply delete_populated.
  - eexists. by apply delete_empty_handle.
Qed.

Lemma release_run m l slot :
  handles m !! l = Some slot →
  live_slot m slot = true →
  ∃ ms, RobotModel_release (Npos l) m
        = Done () (Memory (<[l := None]> (handles m)) ms (strings m)).
Proof.
  intros Hl Hlive. unfold live_slot in Hlive. destruct slot as [a|].
  - destruct (models m !! a) as [[rm n]|] eqn:Ha; [|done].
    eexists. by apply release_populated.
  - exists (models m). rewrite (release_empty_handle _ _ Hl).
    by rewrite (insert_id _ _ _ Hl), memory_eta.
Qed.

(** X1. Every exported function keeps the shares accounted: when it
    completes in a memory where the use count of each live model covers the
    handles referring to it and no handle refers to a destroyed model, the
    same holds of the memory it leaves. *)
Theorem binding_keeps_shares_accounted (m : memory) :
  shares_accounted m →
  (∀ ptr m', RobotModel_new m = Done ptr m' → shares_accounted m')
  ∧ (∀ ptr m', RobotModel_delete ptr m = Done () m' → shares_accounted m')
  ∧ (∀ ptr m', RobotModel_release ptr m = Done () m' → shares_accounted m')
  ∧ (∀ ptr v m', RobotModel_getName ptr m = Done v m' → shares_accounted m')
  ∧ (∀ ptr v m',
       RobotModel_getModelFrame ptr m = Done v m' → shares_accounted m')
  ∧ (∀ ptr v m', RobotModel_isEmpty ptr m = Done v m' → shares_accounted m')
  ∧ (∀ ptr output m',
       RobotModel_printModelInfo ptr output m = Done () m' →
       shares_accounted m')
  ∧ (∀ ptr v m',
       RobotModel_getRootJointName ptr m = Done v m' → shares_accounted m').
Proof.
  intros Hacc. repeat split.
  - intros ptr m'. by apply new_accounted.
  - intros ptr m'. by apply delete_accounted.
  - intros ptr m'. by apply release_accounted.
  - intros ptr v m'. rewrite getName_forward. by apply forward_accounted.
  - intros ptr v m'. rewrite getModelFrame_forward. by apply forward_accounted.
  - intros ptr v m'. rewrite isEmpty_forward. by apply forward_accounted.
  - intros ptr output m'. by apply printModelInfo_accounted.
  - intros ptr v m'. rewrite getRootJointName_forward.
    by apply forward_accounted.
Qed.

Lemma binding_keeps_shares_accounted_witness :
  shares_accounted
    (Memory (<[1%positive := None]> (handles mem0))
            {[ 7%positive := (panda, 1%positive) ]}
            (strings mem0)).
Proof.
  destruct (binding_keeps_shares_accounted mem0 mem0_accounted)
    as (_ & _ & Hrel & _).
  apply (Hrel 1%N). vm_compute. reflexivity.
Defined.

(** X2. After [delete] has completed on a handle, the pointer is dangling:
    a second [delete], [release] and every query on it are undefined. *)
Theorem use_after_delete_undefined (m : memory) (l : positive)
    (slot : option positive) :
  handles m !! l = Some slot →
  live_slot m slot = true →
  ∃ m', RobotModel_delete (Npos l) m = Done () m'
        ∧ RobotModel_delete (Npos l) m' = Undefined
        ∧ RobotModel_release (Npos l) m' = Undefined
        ∧ RobotModel_getName (Npos l) m' = Undefined
        ∧ RobotModel_getModelFrame (Npos l) m' = Undefined
        ∧ RobotModel_isEmpty (Npos l) m' = Undefined
        ∧ (∀ output, RobotModel_printModelInfo (Npos l) output m' = Undefined)
        ∧ RobotModel_getRootJointName (Npos l) m' = Undefined.
Proof.
  intros Hl Hlive. destruct (delete_run _ _ _ Hl Hlive) as [ms Hrun].
  eexists. split; [exact Hrun|].
  assert (Hgone : handles (Memory (delete l (handles m)) ms (strings m)) !! l
                  = None) by apply lookup_delete_eq.
  split; [by apply delete_dangling|]. split; [by apply release_dangling|].
  rewrite getName_forward, getModelFrame_forward, isEmpty_forward,
    getRootJointName_forward.
  rewrite !(forward_dangling _ _ _ Hgone).
  repeat (split; [done|]). split; [|done].
  intros output. by apply printModelInfo_dangling.
Qed.

Lemma use_after_delete_undefined_witness :
  ∃ m', RobotModel_delete 1%N mem0 = Done () m'
        ∧ RobotModel_delete 1%N m' = Undefined
        ∧ RobotModel_getName 1%N m' = Undefined.
Proof.
  destruct (use_after_delete_undefined mem0 1 (Some 7%positive))
    as (m' & Hrun & Hdel & _ & Hname & _); [reflexivity..|].
  exists m'. split; [exact Hrun|]. split; [exact Hdel|]. exact Hname.
Defined.

(** X3. After [release] has completed on a handle, the handle is Empty, so
    every query on it is undefined, while a further [release] and [delete]
    still complete. *)
Theorem query_after_release_undefined (m : memory) (l : positive)
    (slot : option positive) :
  handles m !! l = Some slot →
  live_slot m slot = true →
  ∃ m', RobotModel_release (Npos l) m = Done () m'
        ∧ populated m' (Npos l) = false
        ∧ RobotModel_getName (Npos l) m' = Undefined
        ∧ RobotModel_getModelFrame (Npos l) m' = Undefined
        ∧ RobotModel_isEmpty (Npos l) m' = Undefined
        ∧ (∀ output, RobotModel_printModelInfo (Npos l) output m' = Undefined)
        ∧ RobotModel_getRootJointName (Npos l) m' = Undefined
        ∧ RobotModel_release (Npos l) m' = Done () m'
        ∧ defined (RobotModel_delete (Npos l) m') = true.
Proof.
  intros Hl Hlive. destruct (release_run _ _ _ Hl Hlive) as [ms Hrun].
  eexists. split; [exact Hrun|].
  set (m' := Memory (<[l := None]> (handles m)) ms (strings m)).
  assert (Hempty : handles m' !! l = Some None) by apply lookup_insert_eq.
  split; [by unfold populated; rewrite Hempty|].
  rewrite getName_forward, getModelFrame_forward, isEmpty_forward,
    getRootJointName_forward.
  rewrite !(forward_empty_handle _ _ _ Hempty).
  repeat (split; [done|]).
  split; [intros output; by apply printModelInfo_empty_handle|].
  split; [done|]. split; [by apply release_empty_handle|].
  by rewrite (delete_empty_handle _ _ Hempty).
Qed.

Lemma query_after_release_undefined_witness :
  ∃ m', RobotModel_release 2%N mem0 = Done () m'
        ∧ RobotModel_getName 2%N m' = Undefined.
Proof.
  destruct (query_after_release_undefined mem0 2 (Some 7%positive))
    as (m' & Hrun & _ & Hname & _); [reflexivity..|].
  exists m'. split; [exact Hrun|]. exact Hname.
Defined.

Lemma new_run m :
  RobotModel_new m =
  Done (Npos (fresh (dom (handles m))))
       (Memory (<[fresh (dom (handles m)) := None]> (handles m))
               (models m) (strings m)).
Proof. done. Qed.

Lemma fresh_handle_unused m :
  handles m !! fresh (dom (handles m)) = None.
Proof. apply not_elem_of_dom, is_fresh. Qed.

(** X4. Creating a handle and deleting it straight away gives back the
    memory one started from, in every memory; the same holds with a
    [release] of the new handle in between. *)
Theorem new_then_delete_restores_memory (m : memory) :
  (ptr ← RobotModel_new; RobotModel_delete ptr) m = Done () m
  ∧ (ptr ← RobotModel_new; RobotModel_release ptr;; RobotModel_delete ptr) m
    = Done () m.
Proof.
  assert (Hdel :
    RobotModel_delete (Npos (fresh (dom (handles m))))
      (Memory (<[fresh (dom (handles m)) := None]> (handles m))
              (models m) (strings m)) = Done () m).
  { rewrite delete_empty_handle by apply lookup_insert_eq. simpl.
    by rewrite (delete_insert_id _ _ _ (fresh_handle_unused m)), memory_eta. }
  split.
  - by rewrite (bind_done _ _ _ _ _ (new_run m)).
  - rewrite (bind_done _ _ _ _ _ (new_run m)).
    erewrite bind_done; [exact Hdel|].
    apply release_empty_handle, lookup_insert_eq.
Qed.

(** X5. A handle that was just created is Empty: each of the five queries
    called on the pointer [new] returned is undefined, in every memory. *)
Theorem query_on_new_handle_undefined (m : memory) :
  (ptr ← RobotModel_new; RobotModel_getName ptr) m = Undefined
  ∧ (ptr ← RobotModel_new; RobotModel_getModelFrame ptr) m = Undefined
  ∧ (ptr ← RobotModel_new; RobotModel_isEmpty ptr) m = Undefined
  ∧ (∀ output,
       (ptr ← RobotModel_new; RobotModel_printModelInfo ptr output) m
       = Undefined)
  ∧ (ptr ← RobotModel_new; RobotModel_getRootJointName ptr) m = Undefined.
Proof.
  rewrite !(bind_done _ _ _ _ _ (new_run m)).
  rewrite getName_forward, getModelFrame_forward, isEmpty_forward,
    getRootJointName_forward.
  rewrite !forward_empty_handle by apply lookup_insert_eq.
  repeat (split; [done|]). split; [|done].
  intros output. rewrite (bind_done _ _ _ _ _ (new_run m)).
  apply printModelInfo_empty_handle, lookup_insert_eq.
Qed.

(** X6. For a non-null pointer, [release] followed by [delete] has the
    outcome of [delete] alone, in every memory: the destructor run by
    [delete] drops the share itself.  On the null pointer the two differ:
    [delete] completes, [release] first is undefined. *)
Theorem release_before_delete_redundant (m : memory) :
  (∀ ptr, ptr ≠ nullptr →
     (RobotModel_release ptr;; RobotModel_delete ptr) m
     = RobotModel_delete ptr m)
  ∧ (RobotModel_release nullptr;; RobotModel_delete nullptr) m = Undefined
  ∧ RobotModel_delete nullptr m = Done () m.
Proof.
  split; [|done]. intros [|l] Hnn; [done|].
  destruct (handles m !! l) as [slot|] eqn:Hl.
  - destruct slot as [a|].
    + destruct (models m !! a) as [[rm n]|] eqn:Ha.
      * rewrite (bind_done _ _ _ _ _ (release_populated _ _ _ _ _ Hl Ha)).
        rewrite (delete_populated _ _ _ _ _ Hl Ha).
        rewrite delete_empty_handle by apply lookup_insert_eq. simpl.
        by rewrite delete_insert_eq.
      * assert (RobotModel_release (Npos l) m = Undefined) as Hrel.
        { unfold RobotModel_release. rewrite (reset_handle _ _ _ Hl).
          unfold drop_share. simpl. by rewrite Ha. }
        rewrite (bind_undefined _ _ _ Hrel).
        unfold RobotModel_delete. simpl. rewrite (delete_handle _ _ _ Hl).
        unfold drop_share. by rewrite Ha.
    + rewrite (bind_done _ _ _ _ _ (release_empty_handle _ _ Hl)). done.
  - rewrite (bind_undefined _ _ _ (release_dangling _ _ Hl)).
    by rewrite (delete_dangling _ _ Hl).
Qed.

Lemma release_before_delete_redundant_witness :
  (RobotModel_release 1%N;; RobotModel_delete 1%N) mem0
  = RobotModel_delete 1%N mem0.
Proof.
  apply (proj1 (release_before_delete_redundant mem0) 1%N). discriminate.
Defined.

Lemma two_holders_count m l1 l2 a rm n :
  shares_accounted m →
  l1 ≠ l2 →
  handles m !! l1 = Some (Some a) →
  handles m !! l2 = Some (Some a) →
  models m !! a = Some (rm, n) →
  n ≠ 1%positive.
Proof.
  intros Hacc Hne H1 H2 Ha. specialize (Hacc a). rewrite Ha in Hacc.
  rewrite (holders_lookup _ _ _ a H1), decide_True in Hacc by done.
  assert (delete l1 (handles m) !! l2 = Some (Some a)) as H2'
    by by rewrite lookup_delete_ne.
  rewrite (holders_lookup _ _ _ a H2'), decide_True in Hacc by done.
  intros ->. simpl in Hacc. lia.
Qed.

(** X7. Shared ownership survives one holder.  In a memory with the shares
    accounted, when two distinct handles refer to the same model, [release]
    or [delete] on the first leaves the model alive: the second handle is
    still Populated with it and its queries return what the model holds,
    as C strings. *)
Theorem other_holder_keeps_model (m : memory) (l1 l2 a : positive)
    (rm : RobotModel) (n : positive) :
  shares_accounted m →
  l1 ≠ l2 →
  handles m !! l1 = Some (Some a) →
  handles m !! l2 = Some (Some a) →
  models m !! a = Some (rm, n) →
  (∃ m', RobotModel_release (Npos l1) m = Done () m'
         ∧ handles m' !! l2 = Some (Some a)
         ∧ models m' !! a = Some (rm, Pos.pred n)
         ∧ RobotModel_getName (Npos l2) m'
           = Done (c_str (getName rm)) m'
         ∧ RobotModel_getRootJointName (Npos l2) m'
           = Done (c_str (getRootJointName rm)) m')
  ∧ (∃ m', RobotModel_delete (Npos l1) m = Done () m'
           ∧ handles m' !! l2 = Some (Some a)
           ∧ models m' !! a = Some (rm, Pos.pred n)
           ∧ RobotModel_getName (Npos l2) m'
           = Done (c_str (getName rm)) m'
           ∧ RobotModel_getRootJointName (Npos l2) m'
             = Done (c_str (getRootJointName rm)) m').
Proof.
  intros Hacc Hne H1 H2 Ha.
  pose proof (two_holders_count _ _ _ _ _ _ Hacc Hne H1 H2 Ha) as Hn.
  split.
  - rewrite (release_populated _ _ _ _ _ H1 Ha), decide_False by done.
    eexists. split; [done|].
    set (m' := Memory _ _ _).
    assert (handles m' !! l2 = Some (Some a)) as H2'
      by (simpl; by rewrite lookup_insert_ne).
    assert (models m' !! a = Some (rm, Pos.pred n)) as Ha'
      by apply lookup_insert_eq.
    split; [done|]. split; [done|].
    rewrite getName_forward, getRootJointName_forward.
    by rewrite !(forward_populated _ _ _ _ _ _ H2' Ha').
  - rewrite (delete_populated _ _ _ _ _ H1 Ha), decide_False by done.
    eexists. split; [done|].
    set (m' := Memory _ _ _).
    assert (handles m' !! l2 = Some (Some a)) as H2'
      by (simpl; by rewrite lookup_delete_ne).
    assert (models m' !! a = Some (rm, Pos.pred n)) as Ha'
      by apply lookup_insert_eq.
    split; [done|]. split; [done|].
    rewrite getName_forward, getRootJointName_forward.
    by rewrite !(forward_populated _ _ _ _ _ _ H2' Ha').
Qed.

Lemma other_holder_keeps_model_witness :
  ∃ m', RobotModel_delete 1%N mem0 = Done () m'
        ∧ RobotModel_getName 2%N m' = Done "panda" m'.
Proof.
  destruct (other_holder_keeps_model mem0 1 2 7 panda 2 mem0_accounted)
    as [_ (m' & Hrun & _ & _ & Hname & _)];
    [discriminate | reflexivity | reflexivity | reflexivity |].
  exists m'. split; [exact Hrun|]. exact Hname.
Defined.

Lemma drop_share_outside m l slot hs a rm n :
  handles m !! l = Some slot →
  live_slot m slot = true →
  models m !! a = Some (rm, n) →
  (holders (handles m) a < Pos.to_nat n)%nat →
  ∃ ms n',
    drop_share slot (Memory hs (models m) (strings m))
    = Done () (Memory hs ms (strings m))
    ∧ ms !! a = Some (rm, n')
    ∧ (holders (delete l (handles m)) a < Pos.to_nat n')%nat.
Proof.
  intros Hl Hlive Ha Hlt. rewrite (holders_lookup _ _ _ a Hl) in Hlt.
  unfold live_slot in Hlive. unfold drop_share. simpl.
  destruct slot as [a0|].
  - destruct (models m !! a0) as [[rm0 n0]|] eqn:Ha0; [|done].
    destruct (decide (a0 = a)) as [->|Hne].
    + rewrite Ha in Ha0. injection Ha0 as <- <-.
      rewrite decide_True in Hlt by done.
      rewrite decide_False by (intros ->; simpl in Hlt; lia).
      eexists. exists (Pos.pred n). split; [done|].
      split; [apply lookup_insert_eq|].
      rewrite Pos2Nat.inj_pred by lia. lia.
    + rewrite decide_False in Hlt by congruence.
      eexists. exists n. split; [done|].
      split; [|done].
      case_decide; by rewrite ?lookup_delete_ne, ?lookup_insert_ne.
  - rewrite decide_False in Hlt by done. by exists (models m), n.
Qed.

(** X8. The binding never destroys a model that an owner outside still
    holds.  When the use count of a live model exceeds the number of handles
    referring to it, [release] and [delete] on any handle complete with the
    model still alive, unchanged, and its use count still above the number
    of handles referring to it. *)
Theorem outside_share_keeps_model (m : memory) (l : positive)
    (slot : option positive) (a : positive) (rm : RobotModel) (n : positive) :
  handles m !! l = Some slot →
  live_slot m slot = true →
  models m !! a = Some (rm, n) →
  (holders (handles m) a < Pos.to_nat n)%nat →
  (∃ m' n', RobotModel_release (Npos l) m = Done () m'
            ∧ models m' !! a = Some (rm, n')
            ∧ (holders (handles m') a < Pos.to_nat n')%nat)
  ∧ (∃ m' n', RobotModel_delete (Npos l) m = Done () m'
              ∧ models m' !! a = Some (rm, n')
              ∧ (holders (handles m') a < Pos.to_nat n')%nat).
Proof.
  intros Hl Hlive Ha Hlt. split.
  - destruct (drop_share_outside m l slot (<[l := None]> (handles m))
                a rm n Hl Hlive Ha Hlt) as (ms & n' & Hd & Ha' & Hlt').
    unfold RobotModel_release. rewrite (reset_handle _ _ _ Hl), Hd.
    eexists. exists n'. split; [done|]. simpl. split; [done|].
    by rewrite holders_insert, decide_False.
  - destruct (drop_share_outside m l slot (handles m)
                a rm n Hl Hlive Ha Hlt) as (ms & n' & Hd & Ha' & Hlt').
    rewrite memory_eta in Hd. unfold RobotModel_delete. simpl.
    rewrite (delete_handle _ _ _ Hl), Hd.
    eexists. exists n'. by split.
Qed.

Lemma outside_share_keeps_model_witness :
  ∃ m' n',
    RobotModel_release 1%N
      (Memory (handles mem0) {[ 7%positive := (panda, 3%positive) ]}
              (strings mem0))
    = Done () m'
    ∧ models m' !! 7%positive = Some (panda, n').
Proof.
  destruct (outside_share_keeps_model
              (Memory (handles mem0) {[ 7%positive := (panda, 3%positive) ]}
                      (strings mem0))
              1 (Some 7%positive) 7 panda 3)
    as [(m' & n' & Hrun & Ha & _) _];
    [reflexivity | reflexivity | reflexivity | vm_compute; lia |].
  exists m', n'. split; [exact Hrun|]. exact Ha.
Defined.

(** X9. Calling [printModelInfo] twice in a row with the same arguments has
    the outcome of calling it once, in every memory and for every pair of
    pointers: the second call writes the same dump over the first. *)
Theorem printModelInfo_twice (m : memory) (ptr output : pointer) :
  (RobotModel_printModelInfo ptr output;;
   RobotModel_printModelInfo ptr output) m
  = RobotModel_printModelInfo ptr output m.
Proof.
  destruct (RobotModel_printModelInfo ptr output m) as [[] m'|] eqn:Hrun;
    [|by rewrite (bind_undefined _ _ _ Hrun)].
  rewrite (bind_done _ _ _ _ _ Hrun).
  assert (Hdef : populated m ptr && is_string m output = true).
  { rewrite <-printModelInfo_defined. by rewrite Hrun. }
  apply andb_true_iff in Hdef as [Hp Hs].
  destruct (populated_inv _ _ Hp) as (l & a & rm & n & -> & Hl & Ha).
  destruct (is_string_inv _ _ Hs) as (o & prior & -> & Ho).
  rewrite (printModelInfo_populated _ _ _ _ _ _ _ Hl Ha Ho) in Hrun.
  injection Hrun as <-.
  rewrite (printModelInfo_populated _ l a rm n o (printModelInfo rm ""));
    simpl; [|done|done|apply lookup_insert_eq].
  by rewrite insert_insert_eq.
Qed.

(** X10. The answer of a query depends on the handle only through the model
    its stored pointer refers to: two handles with the same stored pointer
    have the same outcome of [getName], [isEmpty] and [getRootJointName],
    and [printModelInfo] leaves the same memory whichever of the two it is
    given. *)
Theorem queries_agree_on_shared_model (m : memory) (l1 l2 : positive)
    (slot : option positive) :
  handles m !! l1 = Some slot →
  handles m !! l2 = Some slot →
  RobotModel_getName (Npos l1) m = RobotModel_getName (Npos l2) m
  ∧ RobotModel_isEmpty (Npos l1) m = RobotModel_isEmpty (Npos l2) m
  ∧ RobotModel_getRootJointName (Npos l1) m
    = RobotModel_getRootJointName (Npos l2) m
  ∧ ∀ output, RobotModel_printModelInfo (Npos l1) output m
              = RobotModel_printModelInfo (Npos l2) output m.
Proof.
  intros H1 H2.
  unfold RobotModel_getName, RobotModel_isEmpty, RobotModel_getRootJointName,
    RobotModel_printModelInfo, mbind, exec_bind.
  by rewrite (deref_handle _ _ _ H1), (deref_handle _ _ _ H2).
Qed.

Lemma queries_agree_on_shared_model_witness :
  RobotModel_isEmpty 1%N mem0 = RobotModel_isEmpty 2%N mem0.
Proof.
  destruct (queries_agree_on_shared_model mem0 1 2 (Some 7%positive))
    as (_ & Hempty & _); [reflexivity..|].
  exact Hempty.
Defined.

Lemma accounted_populated m l :
  shares_accounted m →
  populated m (Npos l) = true ↔ ∃ a, handles m !! l = Some (Some a).
Proof.
  intros Hacc. unfold populated. split.
  - destruct (handles m !! l) as [[a|]|]; [eauto|done..].
  - intros [a Hl]. rewrite Hl.
    pose proof (accounted_live_slot _ _ _ Hacc Hl) as Hlive.
    unfold live_slot in Hlive. by destruct (models m !! a).
Qed.

(** X11. In a memory with the shares accounted, what decides whether a call
    is defined is the handle alone: [release] and [delete] are defined on a
    non-null pointer exactly when it is the address of a handle object, and
    the four getters exactly when, besides, its stored pointer is not
    empty. *)
Theorem accounted_memory_preconditions (m : memory) (l : positive) :
  shares_accounted m →
  (defined (RobotModel_release (Npos l) m) = true
   ↔ is_Some (handles m !! l))
  ∧ (defined (RobotModel_delete (Npos l) m) = true
     ↔ is_Some (handles m !! l))
  ∧ (defined (RobotModel_getName (Npos l) m) = true
     ↔ ∃ a, handles m !! l = Some (Some a))
  ∧ (defined (RobotModel_getModelFrame (Npos l) m) = true
     ↔ ∃ a, handles m !! l = Some (Some a))
  ∧ (defined (RobotModel_isEmpty (Npos l) m) = true
     ↔ ∃ a, handles m !! l = Some (Some a))
  ∧ (defined (RobotModel_getRootJointName (Npos l) m) = true
     ↔ ∃ a, handles m !! l = Some (Some a)).
Proof.
  intros Hacc.
  split; [unfold RobotModel_release; rewrite reset_defined;
          by apply accounted_is_handle|].
  split; [rewrite delete_defined; simpl; by apply accounted_is_handle|].
  rewrite getName_forward, getModelFrame_forward, isEmpty_forward,
    getRootJointName_forward, !forward_defined.
  repeat split; by apply accounted_populated.
Qed.

Lemma accounted_memory_preconditions_witness :
  defined (RobotModel_delete 2%N mem0) = true
  ↔ is_Some (handles mem0 !! 2%positive).
Proof.
  destruct (accounted_memory_preconditions mem0 2 mem0_accounted)
    as (_ & Hdel & _).
  exact Hdel.
Defined.

(** X12. Two handles created one after the other are distinct, both are
    handles of the resulting memory and both are Empty. *)
Theorem new_twice_distinct (m : memory) :
  ∃ l1 l2 m',
    (p ← RobotModel_new; q ← RobotModel_new; mret (p, q)) m
    = Done (Npos l1, Npos l2) m'
    ∧ l1 ≠ l2
    ∧ handles m' !! l1 = Some None
    ∧ handles m' !! l2 = Some None
    ∧ handles m !! l1 = None
    ∧ handles m !! l2 = None.
Proof.
  set (l1 := fresh (dom (handles m))).
  set (h1 := <[l1 := None]> (handles m)).
  set (l2 := fresh (dom h1)).
  assert (H1 : handles m !! l1 = None) by apply fresh_handle_unused.
  assert (H2 : h1 !! l2 = None) by apply not_elem_of_dom, is_fresh.
  assert (Hne : l1 ≠ l2).
  { intros Heq. rewrite <-Heq in H2. unfold h1 in H2.
    by rewrite lookup_insert_eq in H2. }
  exists l1, l2. eexists. split; [done|]. simpl. fold l1 h1 l2.
  split; [done|].
  split; [by unfold h1; rewrite lookup_insert_ne, lookup_insert_eq|].
  split; [apply lookup_insert_eq|]. split; [done|].
  unfold h1 in H2. by rewrite lookup_insert_ne in H2.
Qed.

(** X13. [delete] on a Populated handle gives up the share of that handle:
    the use count of its model goes down by one, the model is destroyed
    when that was the last share, and no other model is touched.  On an
    Empty handle no model is touched at all. *)
Theorem delete_drops_one_share (m : memory) (l : positive) :
  (∀ a rm n,
     handles m !! l = Some (Some a) →
     models m !! a = Some (rm, n) →
     ∃ m', RobotModel_delete (Npos l) m = Done () m'
           ∧ models m' !! a
             = (if decide (n = 1%positive) then None
                else Some (rm, Pos.pred n))
           ∧ ∀ a', a' ≠ a → models m' !! a' = models m !! a')
  ∧ (handles m !! l = Some None →
     ∃ m', RobotModel_delete (Npos l) m = Done () m'
           ∧ models m' = models m).
Proof.
  split.
  - intros a rm n Hl Ha. rewrite (delete_populated _ _ _ _ _ Hl Ha).
    eexists. split; [done|]. simpl. case_decide.
    + split; [apply lookup_delete_eq|].
      intros a' Hne. by rewrite lookup_delete_ne.
    + split; [apply lookup_insert_eq|].
      intros a' Hne. by rewrite lookup_insert_ne.
  - intros Hl. rewrite (delete_empty_handle _ _ Hl). by eexists.
Qed.

Lemma delete_drops_one_share_witness :
  ∃ m', RobotModel_delete 1%N mem0 = Done () m'
        ∧ models m' !! 7%positive = Some (panda, 1%positive).
Proof.
  destruct (proj1 (delete_drops_one_share mem0 1) 7%positive panda 2%positive)
    as (m' & Hrun & Ha & _); [reflexivity..|].
  exists m'. split; [exact Hrun|]. exact Ha.
Defined.

Lemma drop_share_models m slot m' a :
  drop_share slot m = Done () m' →
  is_Some (models m' !! a) → is_Some (models m !! a).
Proof.
  unfold drop_share. destruct slot as [a0|]; [|by intros [= <-]].
  destruct (models m !! a0) as [[rm n]|] eqn:Ha0; [|done].
  intros [= <-]. simpl.
  destruct (decide (a0 = a)) as [->|Hne]; [by rewrite Ha0|].
  case_decide; by rewrite ?lookup_delete_ne, ?lookup_insert_ne.
Qed.

Lemma populated_mono m m' p :
  (∀ l a, handles m' !! l = Some (Some a) → handles m !! l = Some (Some a)) →
  (∀ a, is_Some (models m' !! a) → is_Some (models m !! a)) →
  populated m' p = true → populated m p = true.
Proof.
  intros Hh Hm. unfold populated. destruct p as [|l]; [done|].
  destruct (handles m' !! l) as [[a|]|] eqn:Hl; [|done..].
  rewrite (Hh _ _ Hl).
  destruct (models m' !! a) as [x|] eqn:Ha; [|done].
  by destruct (Hm a (mk_is_Some _ _ Ha)) as [y ->].
Qed.

(** X14. No function of the file populates a handle.  Whatever the call and
    its arguments, a stored pointer that refers to a model after the call
    was there before it; so a handle that is Populated afterwards was
    Populated before, and a handle only ever goes from Populated to Empty
    here. *)
Theorem binding_never_populates (m : memory) (p : pointer) :
  (∀ ptr m', RobotModel_new m = Done ptr m' →
     populated m' p = true → populated m p = true)
  ∧ (∀ ptr m', RobotModel_delete ptr m = Done () m' →
       populated m' p = true → populated m p = true)
  ∧ (∀ ptr m', RobotModel_release ptr m = Done () m' →
       populated m' p = true → populated m p = true)
  ∧ (∀ ptr output m', RobotModel_printModelInfo ptr output m = Done () m' →
       populated m' p = true → populated m p = true)
  ∧ (∀ ptr v m', RobotModel_getName ptr m = Done v m' → m' = m)
  ∧ (∀ ptr v m', RobotModel_getModelFrame ptr m = Done v m' → m' = m)
  ∧ (∀ ptr v m', RobotModel_isEmpty ptr m = Done v m' → m' = m)
  ∧ (∀ ptr v m', RobotModel_getRootJointName ptr m = Done v m' → m' = m).
Proof.
  split; [|split; [|split; [|split]]].
  - intros ptr m' [= _ <-]. apply populated_mono; simpl; [|done].
    intros l a Hl. apply lookup_insert_Some in Hl as [[_ ?]|[_ Hl]]; done.
  - intros [|l] m'; [by intros [= <-]|].
    unfold RobotModel_delete. simpl.
    destruct (handles m !! l) as [slot|] eqn:Hl;
      [|unfold delete_RobotModelPtr;
        by rewrite (bind_undefined _ _ _ (deref_dangling _ _ Hl))].
    rewrite (delete_handle _ _ _ Hl).
    destruct (drop_share slot m) as [[] m1|] eqn:Hd; [|done].
    intros [= <-]. destruct (drop_share_handles _ _ _ Hd) as [Hh _].
    apply populated_mono; simpl.
    + intros l' a. rewrite Hh. by intros [_ ?]%lookup_delete_Some.
    + intros a. by apply (drop_share_models _ _ _ _ Hd).
  - intros [|l] m'; [done|]. unfold RobotModel_release.
    destruct (handles m !! l) as [slot|] eqn:Hl;
      [|unfold reset;
        by rewrite (bind_undefined _ _ _ (deref_dangling _ _ Hl))].
    rewrite (reset_handle _ _ _ Hl). intros Hd.
    destruct (drop_share_handles _ _ _ Hd) as [Hh _].
    apply populated_mono.
    + intros l' a. rewrite Hh. simpl.
      intros [[_ ?]|[_ ?]]%lookup_insert_Some; done.
    + intros a. by apply (drop_share_models _ _ _ _ Hd).
  - intros ptr output m' Hrun.
    assert (handles m' = handles m ∧ models m' = models m) as [Hh Hm].
    { revert Hrun.
      unfold RobotModel_printModelInfo, mbind, exec_bind, deref.
      destruct ptr as [|l]; [done|].
      destruct (handles m !! l) as [[a|]|]; [|done..].
      unfold arrow. destruct (models m !! a) as [[rm n]|]; [|done].
      unfold assign. destruct output as [|o]; [done|].
      destruct (strings m !! o); [|done]. by intros [= <-]. }
    apply populated_mono; congruence.
  - repeat split; intros ptr v m'.
    + rewrite getName_forward. apply forward_frame.
    + rewrite getModelFrame_forward. apply forward_frame.
    + rewrite isEmpty_forward. apply forward_frame.
    + rewrite getRootJointName_forward. apply forward_frame.
Qed.

Lemma binding_never_populates_witness :
  populated mem0 3%N = false
  ∧ ∀ m', RobotModel_release 1%N mem0 = Done () m' →
          populated m' 3%N = true → populated mem0 3%N = true.
Proof.
  split; [reflexivity|].
  destruct (binding_never_populates mem0 3%N) as (_ & _ & Hrel & _).
  exact (Hrel 1%N).
Defined.
